(** * Trade-lifecycle core of the ai-trading-bot: exit decisions, trade state
    machine, execution loop actions, backtest simulator and Edge sizer.

    Prices and ratios are exact rationals [Q]; timestamps are minutes [Z].
    The repository ships the configuration and command line of the bot
    (config sample, [--eps]/[--dmmp], [--stoplosses]); the decision core
    itself is modelled from the specification, each such definition says so. *)

From Stdlib Require Import QArith Qminmax Qround Qabs ZArith List Bool String Lia Lqa.
From Stdlib Require Import Sorting.Sorted Sorting.Permutation.
From Stdlib Require Import Ascii.
Import ListNotations.

Open Scope Q_scope.

Definition Qltb (a b : Q) : bool := negb (Qle_bool b a).

(** ** ROI table *)
Module Roi.

(** Modelled from the spec: the ROI table lookup ("pick the largest
    threshold <= elapsed minutes").  The table is the [minimal_roi] object of
    the configuration, its keys read as minutes; on equal keys the entry met
    first is kept. *)
Fixpoint min_roi_entry (tbl : list (Z * Q)) (elapsed : Z) : option (Z * Q) :=
  match tbl with
  | [] => None
  | (k, v) :: rest =>
      if (k <=? elapsed)%Z then
        match min_roi_entry rest elapsed with
        | Some (k', v') => if (k <? k')%Z then Some (k', v') else Some (k, v)
        | None => Some (k, v)
        end
      else min_roi_entry rest elapsed
  end.

(** The [minimal_roi] of the configuration sample, in its file order. *)
Definition sample_minimal_roi : list (Z * Q) :=
  [(40%Z, 0); (30%Z, 1#100); (20%Z, 2#100); (0%Z, 4#100)].

End Roi.

(** ** Exit Decision Engine *)
Module Exit.

(** The exit part of the configuration (config sample: [minimal_roi],
    [stoploss], [trailing_*], [experimental.*]) plus the fee rate and the
    profit optimism switch (profit at the candle high instead of its close). *)
Record exit_config := {
  minimal_roi : list (Z * Q);
  stoploss : Q;
  trailing_stop : bool;
  trailing_stop_positive : Q;
  trailing_stop_positive_offset : Q;
  trailing_only_offset_is_reached : bool;
  fee : Q;
  roi_use_high : bool;
  sell_profit_only : bool;
  ignore_roi_if_buy_signal : bool
}.

Inductive sell_type :=
  | ROI | STOP_LOSS | TRAILING_STOP_LOSS | SELL_SIGNAL | FORCE_SELL | EMERGENCY_SELL.

(** Where the current [stoploss_rate] of a trade came from. *)
Inductive sl_origin := SlStatic | SlTrailing.

(** The trade snapshot the engine reads and updates. *)
Record etrade := {
  open_rate : Q;
  open_ts : Z;
  max_rate : Q;
  min_rate : Q;
  stoploss_rate : Q;
  sl_from : sl_origin
}.

Record candle := {
  c_ts : Z;
  c_open : Q;
  c_high : Q;
  c_low : Q;
  c_close : Q
}.

Inductive decision := HOLD | EXIT (reason : sell_type).

Definition with_rates (t : etrade) (mx mn : Q) : etrade :=
  {| open_rate := open_rate t; open_ts := open_ts t; max_rate := mx;
     min_rate := mn; stoploss_rate := stoploss_rate t; sl_from := sl_from t |}.

Definition with_stoploss (t : etrade) (sl : Q) (o : sl_origin) : etrade :=
  {| open_rate := open_rate t; open_ts := open_ts t; max_rate := max_rate t;
     min_rate := min_rate t; stoploss_rate := sl; sl_from := o |}.

(** Modelled from the spec (section 4.1, step 2): the static stoploss
    [open_rate * (1 + stoploss)]. *)
Definition static_stoploss (cfg : exit_config) (t : etrade) : Q :=
  open_rate t * (1 + stoploss cfg).

(** Modelled from the spec (step 2): the trailing stop applies when it is
    enabled and either it is not restricted to a reached offset or
    [max_rate / open_rate - 1 >= trailing_offset]. *)
Definition trailing_active (cfg : exit_config) (t : etrade) : bool :=
  trailing_stop cfg &&
  (negb (trailing_only_offset_is_reached cfg) ||
   Qle_bool (trailing_stop_positive_offset cfg) (max_rate t / open_rate t - 1)).

(** Modelled from the spec (step 2): [stoploss_rate = max(stoploss_rate,
    max_rate * (1 - trailing_stop_positive))] when the trailing stop applies,
    the static value otherwise. *)
Definition update_stoploss (cfg : exit_config) (t : etrade) : etrade :=
  if trailing_active cfg t then
    let cand := max_rate t * (1 - trailing_stop_positive cfg) in
    if Qltb (stoploss_rate t) cand then with_stoploss t cand SlTrailing else t
  else with_stoploss t (static_stoploss cfg t) SlStatic.

(** Fee-adjusted profit ratio of a trade sold at [rate]. *)
Definition profit_ratio (cfg : exit_config) (t : etrade) (rate : Q) : Q :=
  (rate * (1 - fee cfg)) / (open_rate t * (1 + fee cfg)) - 1.

Definition roi_reached (cfg : exit_config) (t : etrade) (c : candle) (profit : Q) : bool :=
  match Roi.min_roi_entry (minimal_roi cfg) (c_ts c - open_ts t) with
  | Some (_, v) => Qle_bool v profit
  | None => false
  end.

(** Modelled from the spec (section 4.1): the Exit Decision Engine, steps
    1 to 6 in their fixed order.  Returns the updated snapshot and the
    decision. *)
Definition should_sell (cfg : exit_config) (t : etrade) (c : candle)
    (buy sell : bool) : etrade * decision :=
  let t1 := with_rates t (Qmax (max_rate t) (c_high c)) (Qmin (min_rate t) (c_low c)) in
  let t2 := update_stoploss cfg t1 in
  if Qle_bool (c_low c) (stoploss_rate t2) then
    (t2, EXIT (match sl_from t2 with SlStatic => STOP_LOSS | SlTrailing => TRAILING_STOP_LOSS end))
  else
    let rate := if roi_use_high cfg then c_high c else c_close c in
    let profit := profit_ratio cfg t2 rate in
    if roi_reached cfg t2 c profit && negb (ignore_roi_if_buy_signal cfg && buy) then
      (t2, EXIT ROI)
    else if sell && (negb (sell_profit_only cfg) || Qltb 0 profit) then
      (t2, EXIT SELL_SIGNAL)
    else (t2, HOLD).

(** A trade as it is opened: extremes at the open rate, static stoploss. *)
Definition open_trade (cfg : exit_config) (rate : Q) (ts : Z) : etrade :=
  {| open_rate := rate; open_ts := ts; max_rate := rate; min_rate := rate;
     stoploss_rate := rate * (1 + stoploss cfg); sl_from := SlStatic |}.

(** The [stoploss_rate] after each processed candle (with its buy and sell
    signals). *)
Fixpoint stoploss_trace (cfg : exit_config) (t : etrade)
    (cs : list (candle * bool * bool)) : list Q :=
  match cs with
  | [] => []
  | (c, b, s) :: rest =>
      let t' := fst (should_sell cfg t c b s) in
      stoploss_rate t' :: stoploss_trace cfg t' rest
  end.

(** The exit settings of the configuration sample, with a 0.1% fee. *)
Definition sample_config : exit_config := {|
  minimal_roi := Roi.sample_minimal_roi;
  stoploss := -(10#100);
  trailing_stop := false;
  trailing_stop_positive := 5#1000;
  trailing_stop_positive_offset := 51#10000;
  trailing_only_offset_is_reached := false;
  fee := 1#1000;
  roi_use_high := false;
  sell_profit_only := false;
  ignore_roi_if_buy_signal := false
|}.

(** A snapshot whose stoploss is the static one whenever the trailing stop
    does not apply to it. *)
Definition sl_consistent (cfg : exit_config) (t : etrade) : Prop :=
  trailing_active cfg t = false -> stoploss_rate t = static_stoploss cfg t.

End Exit.

(** ** Trade State Machine *)
Module TSM.

Inductive trade_state := PENDING_OPEN | OPEN | PENDING_CLOSE | CLOSED | CANCELLED.

Inductive side := Buy | Sell.

Inductive order_status := Pending | Filled | Cancelled.

Record order := {
  order_id : Z;
  order_side : side;
  status : order_status;
  price : Q;
  requested : Q;
  filled : Q;
  order_ts : Z
}.

(** A trade of the state machine; [orders] is in submission order, the
    opening buy order first. *)
Record trade := {
  trade_id : Z;
  pair : string;
  state : trade_state;
  amount : Q;
  close_ts : option Z;
  orders : list order
}.

Inductive order_event :=
  | Submitted (o : order)
  | FillEv (oid : Z) (ts : Z)
  | PartialFill (oid : Z) (qty : Q)
  | CancelEv (oid : Z)
  | TimeoutEv (oid : Z).

(** Modelled from the spec (section 4.2): the transition table.  CLOSED and
    CANCELLED are terminal. *)
Definition after_submit (st : trade_state) (sd : side) : trade_state :=
  match sd, st with
  | Sell, OPEN => PENDING_CLOSE
  | _, s => s
  end.

Definition after_fill (st : trade_state) (sd : side) : trade_state :=
  match sd, st with
  | Buy, PENDING_OPEN | Buy, OPEN => OPEN
  | Sell, PENDING_CLOSE => CLOSED
  | _, s => s
  end.

Definition after_partial (st : trade_state) (sd : side) : trade_state :=
  match sd, st with
  | Buy, PENDING_OPEN => OPEN
  | _, s => s
  end.

Definition after_cancel (st : trade_state) (sd : side) : trade_state :=
  match sd, st with
  | Buy, PENDING_OPEN | Buy, OPEN => CANCELLED
  | Sell, PENDING_CLOSE => OPEN
  | _, s => s
  end.

Definition is_pending (o : order) : bool :=
  match status o with Pending => true | _ => false end.

Definition find_order (oid : Z) (os : list order) : option order :=
  find (fun o => Z.eqb (order_id o) oid) os.

Definition map_order (oid : Z) (f : order -> order) (os : list order) : list order :=
  map (fun o => if Z.eqb (order_id o) oid then f o else o) os.

Definition set_status (st : order_status) (qty : Q) (o : order) : order :=
  {| order_id := order_id o; order_side := order_side o; status := st;
     price := price o; requested := requested o; filled := qty;
     order_ts := order_ts o |}.

Definition mk_trade (t : trade) (st : trade_state) (amt : Q) (cts : option Z)
    (os : list order) : trade :=
  {| trade_id := trade_id t; pair := pair t; state := st; amount := amt;
     close_ts := cts; orders := os |}.

(** Modelled from the spec (section 4.2): application of one order event.
    Events are deduplicated by order identifier: a submission of a known
    identifier, and a fill, partial fill, cancel or timeout of an order that
    is no longer pending, change nothing.  Partial fills set the trade
    amount to the filled quantity. *)
Definition apply_event (t : trade) (ev : order_event) : trade :=
  match ev with
  | Submitted o =>
      match find_order (order_id o) (orders t) with
      | Some _ => t
      | None => mk_trade t (after_submit (state t) (order_side o)) (amount t)
                  (close_ts t) (orders t ++ [o])
      end
  | FillEv oid ts =>
      match find_order oid (orders t) with
      | Some o =>
          if is_pending o then
            mk_trade t (after_fill (state t) (order_side o))
              (match order_side o with Buy => requested o | Sell => amount t end)
              (match order_side o with Buy => close_ts t | Sell => Some ts end)
              (map_order oid (set_status Filled (requested o)) (orders t))
          else t
      | None => t
      end
  | PartialFill oid qty =>
      match find_order oid (orders t) with
      | Some o =>
          if is_pending o then
            mk_trade t (after_partial (state t) (order_side o))
              (match order_side o with Buy => qty | Sell => amount t end)
              (close_ts t)
              (map_order oid (set_status Pending qty) (orders t))
          else t
      | None => t
      end
  | CancelEv oid | TimeoutEv oid =>
      match find_order oid (orders t) with
      | Some o =>
          if is_pending o then
            mk_trade t (after_cancel (state t) (order_side o)) (amount t)
              (close_ts t) (map_order oid (set_status Cancelled (filled o)) (orders t))
          else t
      | None => t
      end
  end.

Definition apply_events (t : trade) (evs : list order_event) : trade :=
  fold_left apply_event evs t.

End TSM.

(** ** Live Execution Loop: adapter calls and tick actions *)
Module Loop.
Import TSM.

Inductive exchange_error := RateLimited | NetworkError | InsufficientFunds | InvalidOrder.

Inductive error_class := RECOVERABLE | FATAL.

(** Modelled from the spec (section 7): error taxonomy. *)
Definition classify (e : exchange_error) : error_class :=
  match e with
  | RateLimited | NetworkError => RECOVERABLE
  | InsufficientFunds | InvalidOrder => FATAL
  end.

Inductive result (A : Type) := Ok (a : A) | Err (e : exchange_error).
Arguments Ok {A} a.
Arguments Err {A} e.

(** An adapter call, seen as its response at each attempt number.  A
    successful order call returns the venue's order identifier. *)
Definition adapter_call := nat -> result Z.

(** Modelled from the spec (sections 4.3 and 9): the bounded-retry
    combinator.  Recoverable errors are retried while the budget lasts
    (the backoff delay is wall-clock time and not modelled); fatal errors
    and an exhausted budget give the last error. *)
Fixpoint retry_from (left attempt : nat) (call : adapter_call) : result Z :=
  match call attempt with
  | Ok v => Ok v
  | Err e =>
      match classify e, left with
      | RECOVERABLE, S l => retry_from l (S attempt) call
      | _, _ => Err e
      end
  end.

Definition with_retry (budget : nat) (call : adapter_call) : result Z :=
  retry_from budget 0 call.

Inductive action :=
  | ActSell (tid : Z) (rate qty : Q)
  | ActTimeout (tid oid : Z)
  | ActBuy (p : string) (rate qty : Q).

Definition new_order (vid : Z) (sd : side) (rate qty : Q) (now : Z) : order :=
  {| order_id := vid; order_side := sd; status := Pending; price := rate;
     requested := qty; filled := 0; order_ts := now |}.

Definition update_trade (tid : Z) (f : trade -> trade) (ts : list trade) : list trade :=
  map (fun t => if Z.eqb (trade_id t) tid then f t else t) ts.

(** The state change an action commits once its adapter call returned
    [vid]. *)
Definition commit (now vid : Z) (ts : list trade) (a : action) : list trade :=
  match a with
  | ActSell tid rate qty =>
      update_trade tid (fun t => apply_event t (Submitted (new_order vid Sell rate qty now))) ts
  | ActTimeout tid oid =>
      update_trade tid (fun t => apply_event t (TimeoutEv oid)) ts
  | ActBuy p rate qty =>
      ts ++ [{| trade_id := Z.of_nat (List.length ts) + 1; pair := p; state := PENDING_OPEN;
                amount := 0; close_ts := None;
                orders := [new_order vid Buy rate qty now] |}]
  end.

(** Modelled from the spec (sections 4.3, 5 and 7): one tick action.  The
    adapter result is awaited before anything is committed; a failed call
    commits nothing and records the action with its error. *)
Definition run_action (budget : nat) (now : Z) (call : adapter_call)
    (ts : list trade) (a : action) : list trade * list (action * exchange_error) :=
  match with_retry budget call with
  | Ok vid => (commit now vid ts a, [])
  | Err e => (ts, [(a, e)])
  end.

Record timeouts := { timeout_buy : Z; timeout_sell : Z }.

(** The opening order of a trade: the first of its orders, a buy. *)
Definition opening_order (t : trade) : option order :=
  match orders t with
  | o :: _ => match order_side o with Buy => Some o | Sell => None end
  | [] => None
  end.

Definition older_than (limit now : Z) (o : order) : bool := Z.ltb limit (now - order_ts o).

(** Modelled from the spec (section 4.3, step 3): the order to cancel for a
    trade, an unfilled opening buy older than [unfilledtimeout.buy] or else a
    pending sell older than [unfilledtimeout.sell]. *)
Definition timed_out_order (ut : timeouts) (now : Z) (t : trade) : option order :=
  let opening :=
    match opening_order t with
    | Some o => if is_pending o && older_than (timeout_buy ut) now o then Some o else None
    | None => None
    end in
  match opening with
  | Some o => Some o
  | None =>
      find (fun o => match order_side o with
                     | Sell => is_pending o && older_than (timeout_sell ut) now o
                     | Buy => false
                     end) (orders t)
  end.

(** Step 3 of a tick for one trade (the trade alone in the context). *)
Definition timeout_step (budget : nat) (ut : timeouts) (now : Z) (call : adapter_call)
    (t : trade) : trade :=
  match timed_out_order ut now t with
  | Some o =>
      match fst (run_action budget now call [t] (ActTimeout (trade_id t) (order_id o))) with
      | [t'] => t'
      | _ => t
      end
  | None => t
  end.

End Loop.

(** ** Backtest Simulator *)
Module Backtest.
Import Exit.

(** A row of a pair's analysed history: the candle and the strategy's buy
    and sell signals on it. *)
Record row := { r_candle : candle; r_buy : bool; r_sell : bool }.

(** Backtest settings: the exit settings, [max_open_trades],
    [--eps/--enable-position-stacking] and
    [--dmmp/--disable-max-market-positions]. *)
Record bt_config := {
  exit_cfg : exit_config;
  max_open_trades : nat;
  enable_position_stacking : bool;
  disable_max_market_positions : bool
}.

Record bt_trade := {
  bt_pair : string;
  bt_et : etrade;
  bt_is_open : bool;
  bt_close_ts : option Z;
  bt_close_rate : option Q;
  bt_reason : option sell_type
}.

(** The history of a pair; a pair without data has no rows. *)
Fixpoint lookup_pair (p : string) (data : list (string * list row)) : list row :=
  match data with
  | [] => []
  | (q, rs) :: rest => if String.eqb p q then rs else lookup_pair p rest
  end.

Fixpoint strictly_increasing (rs : list row) : bool :=
  match rs with
  | r1 :: ((r2 :: _) as rest) =>
      Z.ltb (c_ts (r_candle r1)) (c_ts (r_candle r2)) && strictly_increasing rest
  | _ => true
  end.

(** Modelled from the spec (section 7, DATA errors): every history of the
    input must have strictly increasing timestamps. *)
Definition valid_data (data : list (string * list row)) : bool :=
  forallb (fun pr => strictly_increasing (snd pr)) data.

Fixpoint insert_ts (x : Z) (l : list Z) : list Z :=
  match l with
  | [] => [x]
  | y :: rest =>
      if Z.ltb x y then x :: l
      else if Z.eqb x y then l
      else y :: insert_ts x rest
  end.

(** Modelled from the spec (section 4.4): the single chronological merge of
    the whitelisted pairs' timestamps, each timestamp once. *)
Definition timeline (pdata : list (string * list row)) : list Z :=
  fold_right (fun pr acc =>
                fold_right (fun r acc' => insert_ts (c_ts (r_candle r)) acc') acc (snd pr))
             [] pdata.

(** The row of a history at a timestamp, with the next row. *)
Fixpoint row_at (t : Z) (rs : list row) : option (row * option row) :=
  match rs with
  | [] => None
  | r :: rest => if Z.eqb (c_ts (r_candle r)) t then Some (r, hd_error rest) else row_at t rest
  end.

Definition count_open (trades : list bt_trade) : nat :=
  List.length (filter bt_is_open trades).

Definition pair_open (p : string) (trades : list bt_trade) : bool :=
  existsb (fun x => bt_is_open x && String.eqb (bt_pair x) p) trades.

Definition close_trade (x : bt_trade) (et : etrade) (ts : Z) (rate : Q) (r : sell_type) : bt_trade :=
  {| bt_pair := bt_pair x; bt_et := et; bt_is_open := false; bt_close_ts := Some ts;
     bt_close_rate := Some rate; bt_reason := Some r |}.

Definition hold_trade (x : bt_trade) (et : etrade) : bt_trade :=
  {| bt_pair := bt_pair x; bt_et := et; bt_is_open := bt_is_open x;
     bt_close_ts := bt_close_ts x; bt_close_rate := bt_close_rate x;
     bt_reason := bt_reason x |}.

(** Modelled from the spec (section 4.4): exit evaluation of one trade at a
    timestamp with the shared Exit Decision Engine; the sale fills at the
    next candle's open (the candle's close when there is none). *)
Definition exit_trade (cfg : bt_config) (pdata : list (string * list row)) (t : Z)
    (x : bt_trade) : bt_trade :=
  if bt_is_open x then
    match row_at t (lookup_pair (bt_pair x) pdata) with
    | Some (r, nxt) =>
        if Z.leb (open_ts (bt_et x)) t then
          let res := should_sell (exit_cfg cfg) (bt_et x) (r_candle r) (r_buy r) (r_sell r) in
          match snd res with
          | HOLD => hold_trade x (fst res)
          | EXIT reason =>
              let rate := match nxt with
                          | Some n => c_open (r_candle n)
                          | None => c_close (r_candle r)
                          end in
              close_trade x (fst res) t rate reason
          end
        else x
    | None => x
    end
  else x.

(** Modelled from the spec (sections 4.3 and 4.4) and the [--eps] and
    [--dmmp] options: admission control. *)
Definition slot_available (cfg : bt_config) (trades : list bt_trade) (p : string) : bool :=
  (enable_position_stacking cfg || disable_max_market_positions cfg ||
   Nat.ltb (count_open trades) (max_open_trades cfg)) &&
  (enable_position_stacking cfg || negb (pair_open p trades)).

(** Modelled from the spec (section 4.4): entry of one pair at a timestamp;
    the buy fills at the next candle's open. *)
Definition enter_pair (cfg : bt_config) (t : Z) (trades : list bt_trade)
    (pr : string * list row) : list bt_trade :=
  match row_at t (snd pr) with
  | Some (r, Some n) =>
      if r_buy r && slot_available cfg trades (fst pr) then
        trades ++ [{| bt_pair := fst pr;
                      bt_et := open_trade (exit_cfg cfg) (c_open (r_candle n)) (c_ts (r_candle n));
                      bt_is_open := true; bt_close_ts := None; bt_close_rate := None;
                      bt_reason := None |}]
      else trades
  | _ => trades
  end.

(** One timestamp: exits of all trades, then entries in whitelist order. *)
Definition step_ts (cfg : bt_config) (pdata : list (string * list row))
    (trades : list bt_trade) (t : Z) : list bt_trade :=
  fold_left (enter_pair cfg t) pdata (map (exit_trade cfg pdata t) trades).

(** The trade lists after each timestamp of the merged timeline. *)
Fixpoint run_from (cfg : bt_config) (pdata : list (string * list row))
    (trades : list bt_trade) (ts : list Z) : list (list bt_trade) :=
  match ts with
  | [] => []
  | t :: rest =>
      let trades' := step_ts cfg pdata trades t in
      trades' :: run_from cfg pdata trades' rest
  end.

Definition pair_data (wl : list string) (data : list (string * list row)) :
    list (string * list row) :=
  map (fun p => (p, lookup_pair p data)) wl.

(** Modelled from the spec (section 4.4): the Backtest Simulator.  Rejects
    out-of-order input; otherwise replays the merged timeline from no trades
    and returns the final trade list. *)
Definition backtest (cfg : bt_config) (wl : list string) (data : list (string * list row)) :
    option (list bt_trade) :=
  if valid_data data then
    let pdata := pair_data wl data in
    Some (fold_left (step_ts cfg pdata) (timeline pdata) [])
  else None.

(** The trade lists after each timestamp of a backtest run. *)
Definition backtest_states (cfg : bt_config) (wl : list string)
    (data : list (string * list row)) : list (list bt_trade) :=
  let pdata := pair_data wl data in
  run_from cfg pdata [] (timeline pdata).

End Backtest.

(** ** Edge Position Sizer *)
Module Edge.

(** The [edge] section of the configuration sample. *)
Record edge_config := {
  capital_available_percentage : Q;
  allowed_risk : Q;
  stoploss_range_min : Q;
  stoploss_range_max : Q;
  stoploss_range_step : Q;
  minimum_winrate : Q;
  minimum_expectancy : Q;
  min_trade_number : nat
}.

(** Modelled from the spec (section 4.5) and [--stoplosses "min,max,step"]:
    the swept stoplosses [min + k * step] for [k = 0 .. floor((max - min) /
    step)], [min] first. *)
Definition stoploss_candidates (ec : edge_config) : list Q :=
  let n := Z.to_nat (Qfloor ((stoploss_range_max ec - stoploss_range_min ec)
                              / stoploss_range_step ec)) in
  map (fun k => stoploss_range_min ec + inject_Z (Z.of_nat k) * stoploss_range_step ec)
      (seq 0 (S n)).

Record pair_stats := { nb_trades : nat; winrate : Q; expectancy : Q }.

Definition sumQ (l : list Q) : Q := fold_right Qplus 0 l.

Definition Qnat (n : nat) : Q := inject_Z (Z.of_nat n).

(** Modelled from the spec (section 4.5): win rate and expectancy of a
    list of closed-trade profit ratios; the expectancy [avg_win * winrate -
    avg_loss * lossrate] is normalised by the risk, the average loss. *)
Definition stats (profits : list Q) : pair_stats :=
  let wins := filter (fun p => Qltb 0 p) profits in
  let losses := filter (fun p => negb (Qltb 0 p)) profits in
  let n := Qnat (List.length profits) in
  let wr := Qnat (List.length wins) / n in
  let lr := Qnat (List.length losses) / n in
  let avg_win := sumQ wins / Qnat (List.length wins) in
  let avg_loss := - sumQ losses / Qnat (List.length losses) in
  {| nb_trades := List.length profits; winrate := wr;
     expectancy := (avg_win * wr - avg_loss * lr) / avg_loss |}.

(** The thresholds [min_trade_number], [minimum_winrate] and
    [minimum_expectancy]. *)
Definition passes (ec : edge_config) (st : pair_stats) : bool :=
  Nat.leb (min_trade_number ec) (nb_trades st) &&
  Qle_bool (minimum_winrate ec) (winrate st) &&
  Qle_bool (minimum_expectancy ec) (expectancy st).

Section Sizer.

(** [simulate s]: the profit ratios of the pair's closed trades over the
    historical window, replayed with stoploss [s]. *)
Variable simulate : Q -> list Q.

Definition candidate_stats (ec : edge_config) : list (Q * pair_stats) :=
  map (fun s => (s, stats (simulate s))) (stoploss_candidates ec).

Definition pick (ec : edge_config) (best : option (Q * pair_stats))
    (c : Q * pair_stats) : option (Q * pair_stats) :=
  if passes ec (snd c) then
    match best with
    | None => Some c
    | Some b => if Qltb (expectancy (snd b)) (expectancy (snd c)) then Some c else best
    end
  else best.

(** Modelled from the spec (section 4.5): the candidate of maximal
    expectancy among those meeting the thresholds (the first on ties). *)
Definition best_stoploss (ec : edge_config) : option (Q * pair_stats) :=
  fold_left (pick ec) (candidate_stats ec) None.

(** [capital_available_percentage * total_capital * allowed_risk /
    |stoploss|]. *)
Definition stake_size (ec : edge_config) (total_capital sl : Q) : Q :=
  capital_available_percentage ec * total_capital * allowed_risk ec / Qabs sl.

(** Modelled from the spec (section 4.5): the Edge result for a pair, its
    stoploss and stake, or [None] when the pair is excluded. *)
Definition edge_pair (ec : edge_config) (total_capital : Q) : option (Q * Q) :=
  match best_stoploss ec with
  | Some (sl, _) => Some (sl, stake_size ec total_capital sl)
  | None => None
  end.

End Sizer.

(** The [edge] section of the configuration sample. *)
Definition sample_edge : edge_config := {|
  capital_available_percentage := 1#2;
  allowed_risk := 1#100;
  stoploss_range_min := -(1#100);
  stoploss_range_max := -(1#10);
  stoploss_range_step := -(1#100);
  minimum_winrate := 60#100;
  minimum_expectancy := 20#100;
  min_trade_number := 10
|}.

End Edge.

(** * Sample inputs *)

Module ExitSamples.
Import Exit.

Definition trade_at_100 : etrade := open_trade sample_config 100 0.

Definition candle_low (low : Q) : candle :=
  {| c_ts := 5; c_open := 100; c_high := 100; c_low := low; c_close := 95 |}.

(** The sample settings with the trailing stop switched on. *)
Definition trailing_config : exit_config := {|
  minimal_roi := Roi.sample_minimal_roi;
  stoploss := -(10#100);
  trailing_stop := true;
  trailing_stop_positive := 5#1000;
  trailing_stop_positive_offset := 51#10000;
  trailing_only_offset_is_reached := true;
  fee := 1#1000;
  roi_use_high := false;
  sell_profit_only := false;
  ignore_roi_if_buy_signal := false
|}.

Definition rising_then_falling : list (candle * bool * bool) :=
  [({| c_ts := 5; c_open := 100; c_high := 101; c_low := 99; c_close := 100 |}, false, false);
   ({| c_ts := 10; c_open := 100; c_high := 110; c_low := 100; c_close := 109 |}, false, false);
   ({| c_ts := 15; c_open := 109; c_high := 109; c_low := 102; c_close := 103 |}, false, true)].

End ExitSamples.

Module LoopSamples.
Import TSM Loop.

(** A trade whose opening buy (venue id 7, submitted at minute 0) is still
    unfilled. *)
Definition waiting_trade : trade := {|
  trade_id := 1; pair := "ETH/BTC"%string; state := PENDING_OPEN; amount := 0;
  close_ts := None; orders := [new_order 7 Buy (1#50) 10 0] |}.

(** The [unfilledtimeout] of the configuration sample. *)
Definition sample_timeouts : timeouts := {| timeout_buy := 10; timeout_sell := 30 |}.

Definition venue_down : adapter_call := fun _ => Err NetworkError.

Definition venue_up : adapter_call := fun _ => Ok 0%Z.

End LoopSamples.

Module BacktestSamples.
Import Exit Backtest.

Definition flat_row (ts : Z) (buy : bool) : row :=
  {| r_candle := {| c_ts := ts; c_open := 100; c_high := 101; c_low := 99; c_close := 100 |};
     r_buy := buy; r_sell := false |}.

Definition two_pairs : list (string * list row) :=
  [("ETH/BTC"%string, [flat_row 0 true; flat_row 5 false; flat_row 10 false]);
   ("LTC/BTC"%string, [flat_row 0 true; flat_row 5 true; flat_row 10 false])].

Definition two_pairs_swapped : list (string * list row) :=
  [("LTC/BTC"%string, [flat_row 0 true; flat_row 5 true; flat_row 10 false]);
   ("ETH/BTC"%string, [flat_row 0 true; flat_row 5 false; flat_row 10 false])].

Definition whitelist : list string := ["ETH/BTC"%string; "LTC/BTC"%string].

Definition one_slot : bt_config := {|
  exit_cfg := sample_config; max_open_trades := 1;
  enable_position_stacking := false; disable_max_market_positions := false |}.

(** One slot, with [--dmmp]. *)
Definition one_slot_dmmp : bt_config := {|
  exit_cfg := sample_config; max_open_trades := 1;
  enable_position_stacking := false; disable_max_market_positions := true |}.

End BacktestSamples.

Module EdgeSamples.

(** Ten closed trades, eight winning 5% and two losing 1%, whatever the
    stoploss. *)
Definition steady_history : Q -> list Q :=
  fun _ => [5#100; 5#100; 5#100; 5#100; 5#100; 5#100; 5#100; 5#100; -(1#100); -(1#100)].

End EdgeSamples.

(** ** Installer script [setup.sh] *)
Module Setup.
Local Open Scope nat_scope.
Local Open Scope string_scope.

(** The double-quote and backslash characters, written by their codes. *)
Definition dq : ascii := ascii_of_nat 34.
Definition quoted (s : string) : string := String dq (s ++ String dq EmptyString).

(** [[[ $REPLY =~ ^[Yy]$ ]]]: the reply is exactly one [y] or [Y]. *)
Definition answers_yes (reply : string) : bool :=
  match reply with
  | String c EmptyString => Ascii.eqb c "y"%char || Ascii.eqb c "Y"%char
  | _ => false
  end.

(** What [check_installed_python] observes: [${VIRTUAL_ENV}], which names
    [which] finds, whether [<python> -m pip] exits 0, and the [${PYTHON}]
    inherited from the caller. *)
Record py_env := {
  virtual_env : string;
  on_path : string -> bool;
  pip_works : string -> bool;
  python_var : string
}.

(** Either the script exits with a code, or the function returns with
    [PYTHON] set, after [check_installed_pip] or without it. *)
Inductive py_outcome :=
| PyExit (code : nat)
| PyReturn (python : string) (pip_checked : bool).

Definition is_ifs (c : ascii) : bool :=
  Ascii.eqb c " "%char || Ascii.eqb c (ascii_of_nat 9) || Ascii.eqb c (ascii_of_nat 10).

(** [[ -z ${PYTHON} ]] with the expansion unquoted: no word left after
    splitting gives [[ -z ]], which holds; one word gives a non-empty
    operand and two or more a test error, which both fail. *)
Fixpoint blank (s : string) : bool :=
  match s with
  | EmptyString => true
  | String c s' => is_ifs c && blank s'
  end.

Definition check_installed_pip (env : py_env) (python : string) : py_outcome :=
  if pip_works env python then PyReturn python true else PyExit 1.

Definition check_installed_python (env : py_env) : py_outcome :=
  if negb (String.eqb (virtual_env env) "") then PyExit 2
  else if on_path env "python3.7" then check_installed_pip env "python3.7"
  else if on_path env "python3.6" then check_installed_pip env "python3.6"
  else if blank (python_var env) then PyExit 1
  else PyReturn (python_var env) false.

Inductive command := Install | Config | Update | Reset | Plot | Help.

(** The word of [case $* in]: the arguments joined by single spaces. *)
Definition case_word (args : list string) : string := String.concat " " args.

Definition dispatch (args : list string) : command :=
  let w := case_word args in
  if String.eqb w "--install" || String.eqb w "-i" then Install
  else if String.eqb w "--config" || String.eqb w "-c" then Config
  else if String.eqb w "--update" || String.eqb w "-u" then Update
  else if String.eqb w "--reset" || String.eqb w "-r" then Reset
  else if String.eqb w "--plot" || String.eqb w "-p" then Plot
  else Help.

(** The script body: [check_installed_python], then the [case]. *)
Inductive run := Stopped (code : nat) | Dispatched (python : string) (cmd : command).

Definition setup_main (env : py_env) (args : list string) : run :=
  match check_installed_python env with
  | PyExit c => Stopped c
  | PyReturn p _ => Dispatched p (dispatch args)
  end.

(** [grep] keeping the lines that contain a fixed text. *)
Fixpoint contains (pat s : string) : bool :=
  String.prefix pat s ||
  match s with
  | EmptyString => false
  | String _ s' => contains pat s'
  end.

Definition grep_count (keep : string -> bool) (lines : list string) : nat :=
  List.length (List.filter keep lines).

Inductive effect :=
| GitFetch
| GitResetHard (target : string)
| RemoveEnv
| MakeVenv
| UpdateEnv
| ExitWith (code : nat).

(** [reset], over the lines of [git branch -vv] (the same before and
    after [git fetch -a], which moves no local branch), the reply to the
    prompt, whether [.env] exists and whether [${PYTHON} -m venv .env]
    succeeds. [grep -cE "\* develop|\* master"] and [grep -c "* develop"]
    both look for the literal text. *)
Definition reset_effects (branch_lines : list string) (reply : string)
    (env_dir venv_ok : bool) : list effect :=
  app
    (if Nat.eqb (grep_count (fun l => contains "* develop" l || contains "* master" l)
                            branch_lines) 1
     then
       if answers_yes reply then
         GitFetch ::
         (if Nat.eqb (grep_count (contains "* develop") branch_lines) 1
          then [GitResetHard "origin/develop"]
          else if Nat.eqb (grep_count (contains "* master") branch_lines) 1
          then [GitResetHard "origin/master"]
          else [])
       else []
     else [])
    (app (if env_dir then [RemoveEnv] else [])
         (MakeVenv :: (if venv_ok then [UpdateEnv] else [ExitWith 1]))).

(** [${var:-default}] *)
Definition default_if_empty (v d : string) : string :=
  if String.eqb v "" then d else v.

(** The values [read] assigns to the prompted variables. *)
Record answers := {
  max_trades : string;
  stake_amount : string;
  stake_currency : string;
  fiat_currency : string;
  api_key : string;
  api_secret : string;
  token : string;
  chat_id : string
}.

(** A basic regular expression made of literal characters and [.], tried
    at the start of [s]. *)
Fixpoint bre_prefix (pat s : string) : bool :=
  match pat, s with
  | EmptyString, _ => true
  | String p pat', String c s' => (Ascii.eqb p "."%char || Ascii.eqb p c) && bre_prefix pat' s'
  | String _ _, EmptyString => false
  end.

(** The replacement of an [s] command, [&] standing for the matched text.
    The replacements built by [config_generator] hold a backslash or a
    slash only when an answer does; such answers are left out of this
    model. *)
Fixpoint expand (rep m : string) : string :=
  match rep with
  | EmptyString => EmptyString
  | String c rep' => if Ascii.eqb c "&"%char then m ++ expand rep' m else String c (expand rep' m)
  end.

(** [s/pat/rep/g] on one line: leftmost matches, not overlapping. *)
Fixpoint subst_from (fuel : nat) (pat rep s : string) : string :=
  match fuel with
  | O => s
  | S fuel' =>
      match s with
      | EmptyString => EmptyString
      | String c s' =>
          if bre_prefix pat s
          then expand rep (substring 0 (String.length pat) s) ++
               subst_from fuel' pat rep
                 (substring (String.length pat) (String.length s - String.length pat) s)
          else String c (subst_from fuel' pat rep s')
      end
  end.

Definition subst_g (pat rep s : string) : string :=
  subst_from (String.length s) pat rep s.

Definition max_trades_cmd (a : answers) : string * string :=
  (quoted "max_open_trades" ++ ": 3,",
   quoted "max_open_trades" ++ ": " ++ default_if_empty (max_trades a) "3" ++ ",").

Definition stake_amount_cmd (a : answers) : string * string :=
  (quoted "stake_amount" ++ ": 0.05,",
   quoted "stake_amount" ++ ": " ++ default_if_empty (stake_amount a) "0.05" ++ ",").

Definition stake_currency_cmd (a : answers) : string * string :=
  (quoted "stake_currency" ++ ": " ++ quoted "BTC" ++ ",",
   quoted "stake_currency" ++ ": " ++ quoted (default_if_empty (stake_currency a) "BTC") ++ ",").

Definition fiat_currency_cmd (a : answers) : string * string :=
  (quoted "fiat_display_currency" ++ ": " ++ quoted "USD" ++ ",",
   quoted "fiat_display_currency" ++ ": " ++ quoted (default_if_empty (fiat_currency a) "USD") ++ ",").

Definition dry_run_cmd : string * string :=
  (quoted "dry_run" ++ ": false,", quoted "dry_run" ++ ": true,").

(** The [-e] scripts of the [sed] call in [config_generator], in order. *)
Definition sed_script (a : answers) : list (string * string) :=
  [max_trades_cmd a; stake_amount_cmd a; stake_currency_cmd a; fiat_currency_cmd a;
   (quoted "your_exchange_key", quoted (api_key a));
   (quoted "your_exchange_secret", quoted (api_secret a));
   (quoted "your_telegram_token", quoted (token a));
   (quoted "your_telegram_chat_id", quoted (chat_id a));
   dry_run_cmd].

(** [sed] runs every script on each line in turn. *)
Definition sed_line (script : list (string * string)) (line : string) : string :=
  fold_left (fun l cmd => subst_g (fst cmd) (snd cmd) l) script line.

Definition config_generator (a : answers) (template : list string) : list string :=
  map (sed_line (sed_script a)) template.



End Setup.

(** ** Project-root search of the strategy-analysis notebook *)
Module Notebook.
Local Open Scope nat_scope.

(** Directories as the list of their components from the root; the parent
    of the root is the root. *)
Definition parent (d : list string) : list string := removelast d.

(** [while i<4 and (not Path('LICENSE').is_file()): os.chdir(..); i+=1].
    The [try] branch before it always raises: [os] has no [chdirdir]. *)
Fixpoint climb (has_license : list string -> bool) (fuel i : nat) (cwd : list string)
    : list string :=
  match fuel with
  | O => cwd
  | S fuel' =>
      if Nat.ltb i 4 && negb (has_license cwd)
      then climb has_license fuel' (S i) (parent cwd)
      else cwd
  end.

Definition project_root (has_license : list string -> bool) (cwd : list string)
    : list string :=
  climb has_license 4 0 cwd.

End Notebook.

Module SetupSamples.
Import Setup.
Local Open Scope string_scope.

(** A machine with only [python3] on the path, called with [PYTHON=python3]. *)
Definition python3_only : py_env :=
  {| virtual_env := ""; on_path := fun _ => false; pip_works := fun _ => true;
     python_var := "python3" |}.

(** The same machine from inside an activated virtual environment. *)
Definition inside_venv : py_env :=
  {| virtual_env := "/home/bot/.env"; on_path := fun _ => true; pip_works := fun _ => true;
     python_var := "" |}.


End SetupSamples.

(** * Properties *)

Lemma Qltb_true a b : Qltb a b = true <-> a < b.
Proof.
  unfold Qltb. rewrite negb_true_iff. split; intro H.
  - apply Qnot_le_lt. intro H'. apply Qle_bool_iff in H'. congruence.
  - destruct (Qle_bool b a) eqn:E; [|reflexivity].
    apply Qle_bool_iff in E. exfalso. apply (Qlt_not_le _ _ H E).
Qed.

Lemma Qltb_false a b : Qltb a b = false <-> b <= a.
Proof.
  unfold Qltb. rewrite negb_false_iff. apply Qle_bool_iff.
Qed.

Lemma Qle_bool_false a b : Qle_bool a b = false <-> b < a.
Proof.
  split; intro H.
  - apply Qnot_le_lt. intro H'. apply Qle_bool_iff in H'. congruence.
  - destruct (Qle_bool a b) eqn:E; [|reflexivity].
    apply Qle_bool_iff in E. exfalso. apply (Qlt_not_le _ _ H E).
Qed.

(** ** ROI table *)

Lemma min_roi_entry_spec tbl e :
  match Roi.min_roi_entry tbl e with
  | Some (k, v) =>
      In (k, v) tbl /\ (k <= e)%Z /\
      (forall k' v', In (k', v') tbl -> (k' <= e)%Z -> (k' <= k)%Z)
  | None => forall k v, In (k, v) tbl -> (e < k)%Z
  end.
Proof.
  induction tbl as [|[k v] rest IH]; simpl.
  - intros k v [].
  - destruct (Z.leb_spec k e) as [Hk|Hk].
    + destruct (Roi.min_roi_entry rest e) as [[k' v']|] eqn:E.
      * destruct IH as (Hin & Hle & Hmax).
        destruct (Z.ltb_spec k k') as [Hlt|Hge].
        -- split; [right; exact Hin|]. split; [exact Hle|].
           intros k'' v'' [Heq|Hin''] Hle''.
           ++ injection Heq as -> ->. lia.
           ++ apply (Hmax _ _ Hin'' Hle'').
        -- split; [left; reflexivity|]. split; [exact Hk|].
           intros k'' v'' [Heq|Hin''] Hle''.
           ++ injection Heq as -> ->. lia.
           ++ specialize (Hmax _ _ Hin'' Hle''). lia.
      * split; [left; reflexivity|]. split; [exact Hk|].
        intros k'' v'' [Heq|Hin''] Hle''.
        -- injection Heq as -> ->. lia.
        -- specialize (IH _ _ Hin''). lia.
    + destruct (Roi.min_roi_entry rest e) as [[k' v']|] eqn:E.
      * destruct IH as (Hin & Hle & Hmax).
        split; [right; exact Hin|]. split; [exact Hle|].
        intros k'' v'' [Heq|Hin''] Hle''.
        -- injection Heq as -> ->. lia.
        -- apply (Hmax _ _ Hin'' Hle'').
      * intros k'' v'' [Heq|Hin''].
        -- injection Heq as -> ->. lia.
        -- apply (IH _ _ Hin'').
Qed.

(** Claim C8: the ROI lookup returns an entry of the table whose threshold
    is the largest one not above the elapsed minutes (none when every
    threshold is above it); on the sample table [{0:0.04, 20:0.02, 30:0.01,
    40:0.0}] at 25 minutes it returns the entry [20:0.02]. *)
Theorem roi_lookup_largest_threshold :
  (forall tbl e,
     match Roi.min_roi_entry tbl e with
     | Some (k, v) =>
         In (k, v) tbl /\ (k <= e)%Z /\
         (forall k' v', In (k', v') tbl -> (k' <= e)%Z -> (k' <= k)%Z)
     | None => forall k v, In (k, v) tbl -> (e < k)%Z
     end) /\
  Roi.min_roi_entry Roi.sample_minimal_roi 25 = Some (20%Z, 2#100).
Proof.
  split.
  - intros tbl e. apply min_roi_entry_spec.
  - reflexivity.
Qed.

(** ** Exit Decision Engine *)
Module ExitFacts.
Import Exit.

Ltac split_ifs :=
  repeat match goal with
         | |- context [if ?b then _ else _] => destruct b
         end.

Lemma should_sell_fst cfg t c b s :
  fst (should_sell cfg t c b s) =
  update_stoploss cfg (with_rates t (Qmax (max_rate t) (c_high c)) (Qmin (min_rate t) (c_low c))).
Proof. unfold should_sell. cbv zeta. split_ifs; reflexivity. Qed.

Lemma update_stoploss_rates cfg t :
  open_rate (update_stoploss cfg t) = open_rate t /\
  max_rate (update_stoploss cfg t) = max_rate t.
Proof. unfold update_stoploss. split_ifs; split; reflexivity. Qed.

Lemma trailing_active_mono cfg t u :
  0 < open_rate t -> open_rate u = open_rate t -> max_rate t <= max_rate u ->
  trailing_active cfg t = true -> trailing_active cfg u = true.
Proof.
  intros Hpos Ho Hm. unfold trailing_active. rewrite Ho.
  destruct (trailing_stop cfg); [|discriminate]. simpl.
  destruct (negb (trailing_only_offset_is_reached cfg)); [reflexivity|]. simpl.
  rewrite !Qle_bool_iff. intro H. eapply Qle_trans; [exact H|].
  apply Qplus_le_compat; [|apply Qle_refl].
  unfold Qdiv. apply Qmult_le_compat_r; [exact Hm|].
  apply Qinv_le_0_compat. apply Qlt_le_weak. exact Hpos.
Qed.

Lemma should_sell_consistent cfg t c b s :
  sl_consistent cfg (fst (should_sell cfg t c b s)).
Proof.
  rewrite should_sell_fst. unfold sl_consistent.
  set (t1 := with_rates t _ _).
  unfold update_stoploss.
  destruct (trailing_active cfg t1) eqn:E.
  - destruct (Qltb _ _).
    + intro H. exfalso. change (trailing_active cfg t1 = false) in H. congruence.
    + congruence.
  - intros _. reflexivity.
Qed.

Lemma should_sell_stoploss_le cfg t c b s :
  sl_consistent cfg t -> 0 < open_rate t ->
  stoploss_rate t <= stoploss_rate (fst (should_sell cfg t c b s)).
Proof.
  intros Hc Hpos. rewrite should_sell_fst.
  set (t1 := with_rates t _ _).
  unfold update_stoploss.
  destruct (trailing_active cfg t1) eqn:E.
  - destruct (Qltb (stoploss_rate t1) (max_rate t1 * (1 - trailing_stop_positive cfg))) eqn:L.
    + apply Qltb_true in L. simpl. apply Qlt_le_weak. exact L.
    + apply Qle_refl.
  - destruct (trailing_active cfg t) eqn:Et.
    + exfalso. assert (trailing_active cfg t1 = true) as Ht1; [|congruence].
      apply (trailing_active_mono cfg t t1 Hpos eq_refl); [|exact Et].
      simpl. apply Q.le_max_l.
    + rewrite (Hc Et). unfold static_stoploss. simpl. apply Qle_refl.
Qed.

Lemma stoploss_trace_sorted_from cfg t cs :
  sl_consistent cfg t -> 0 < open_rate t ->
  Sorted Qle (stoploss_rate t :: stoploss_trace cfg t cs).
Proof.
  revert t. induction cs as [|[[c b] s] rest IH]; intros t Hc Hpos; simpl.
  - repeat constructor.
  - constructor.
    + apply IH.
      * apply should_sell_consistent.
      * rewrite should_sell_fst, (proj1 (update_stoploss_rates _ _)). exact Hpos.
    + constructor. apply should_sell_stoploss_le; assumption.
Qed.

End ExitFacts.

(** Claim C3: on a candle where the effective stoploss is breached and the
    strategy signals a sell, the engine exits with STOP_LOSS (or
    TRAILING_STOP_LOSS when the rate came from the trailing update), never
    with SELL_SIGNAL. *)
Theorem stoploss_precedes_sell_signal cfg t c buy :
  Exit.c_low c <= Exit.stoploss_rate (fst (Exit.should_sell cfg t c buy true)) ->
  snd (Exit.should_sell cfg t c buy true) =
    Exit.EXIT (match Exit.sl_from (fst (Exit.should_sell cfg t c buy true)) with
               | Exit.SlStatic => Exit.STOP_LOSS
               | Exit.SlTrailing => Exit.TRAILING_STOP_LOSS
               end) /\
  snd (Exit.should_sell cfg t c buy true) <> Exit.EXIT Exit.SELL_SIGNAL.
Proof.
  rewrite ExitFacts.should_sell_fst. intro H.
  apply Qle_bool_iff in H.
  unfold Exit.should_sell. cbv zeta. rewrite H. simpl.
  split; [reflexivity|].
  destruct (Exit.sl_from _); discriminate.
Qed.

(** Witness of C3: the sample trade opened at 100 with a sell signal on a
    candle whose low is 89. *)
Lemma stoploss_precedes_sell_signal_witness :
  snd (Exit.should_sell Exit.sample_config ExitSamples.trade_at_100
         (ExitSamples.candle_low 89) false true) <> Exit.EXIT Exit.SELL_SIGNAL.
Proof.
  apply (stoploss_precedes_sell_signal Exit.sample_config ExitSamples.trade_at_100
           (ExitSamples.candle_low 89) false).
  apply Qle_bool_iff. reflexivity.
Defined.

(** Claim C4: while a trade is processed candle after candle, the
    stoploss_rate after each candle is never below the one after the
    previous candle (trailing stop enabled, positive open rate). *)
Theorem trailing_stoploss_nondecreasing cfg t cs :
  Exit.trailing_stop cfg = true -> 0 < Exit.open_rate t ->
  Sorted Qle (Exit.stoploss_trace cfg t cs).
Proof.
  intros _ Hpos. destruct cs as [|[[c b] s] rest]; simpl; [constructor|].
  apply ExitFacts.stoploss_trace_sorted_from.
  - apply ExitFacts.should_sell_consistent.
  - rewrite ExitFacts.should_sell_fst, (proj1 (ExitFacts.update_stoploss_rates _ _)).
    exact Hpos.
Qed.

(** Witness of C4: the sample trade under a trailing stop over three
    candles. *)
Lemma trailing_stoploss_nondecreasing_witness :
  Sorted Qle (Exit.stoploss_trace ExitSamples.trailing_config ExitSamples.trade_at_100
                ExitSamples.rising_then_falling).
Proof.
  apply trailing_stoploss_nondecreasing; [reflexivity|].
  apply Qltb_true. reflexivity.
Defined.

Lemma should_sell_stop_loss_iff cfg t c b s :
  snd (Exit.should_sell cfg t c b s) = Exit.EXIT Exit.STOP_LOSS <->
  (Exit.c_low c <= Exit.stoploss_rate (fst (Exit.should_sell cfg t c b s)) /\
   Exit.sl_from (fst (Exit.should_sell cfg t c b s)) = Exit.SlStatic).
Proof.
  rewrite ExitFacts.should_sell_fst. unfold Exit.should_sell. cbv zeta.
  set (t2 := Exit.update_stoploss cfg _).
  destruct (Qle_bool (Exit.c_low c) (Exit.stoploss_rate t2)) eqn:E.
  - apply Qle_bool_iff in E. simpl.
    destruct (Exit.sl_from t2); split.
    + intros _. split; [exact E | reflexivity].
    + intros _. reflexivity.
    + discriminate.
    + intros [_ H]. discriminate.
  - apply Qle_bool_false in E. simpl. split.
    + ExitFacts.split_ifs; discriminate.
    + intros [H _]. exfalso. exact (Qlt_not_le _ _ E H).
Qed.

(** Claim C9: with the trailing stop disabled the effective stoploss_rate
    is [open_rate * (1 + stoploss)] and the engine exits with STOP_LOSS
    exactly when the candle's low is at or below it. *)
Theorem static_stoploss_exit cfg t c buy sell :
  Exit.trailing_stop cfg = false ->
  Exit.stoploss_rate (fst (Exit.should_sell cfg t c buy sell)) =
    Exit.open_rate t * (1 + Exit.stoploss cfg) /\
  (snd (Exit.should_sell cfg t c buy sell) = Exit.EXIT Exit.STOP_LOSS <->
   Exit.c_low c <= Exit.open_rate t * (1 + Exit.stoploss cfg)).
Proof.
  intro Htr.
  assert (Hf : fst (Exit.should_sell cfg t c buy sell) =
               Exit.with_stoploss (Exit.with_rates t (Qmax (Exit.max_rate t) (Exit.c_high c))
                                     (Qmin (Exit.min_rate t) (Exit.c_low c)))
                 (Exit.open_rate t * (1 + Exit.stoploss cfg)) Exit.SlStatic).
  { rewrite ExitFacts.should_sell_fst. unfold Exit.update_stoploss, Exit.trailing_active.
    rewrite Htr. reflexivity. }
  split.
  - rewrite Hf. reflexivity.
  - rewrite should_sell_stop_loss_iff, Hf. simpl. tauto.
Qed.

(** Witness of C9: [stoploss = -0.10], [open_rate = 100]; a candle with
    low 89 triggers STOP_LOSS, one with low 90.5 does not. *)
Lemma static_stoploss_exit_witness :
  snd (Exit.should_sell Exit.sample_config ExitSamples.trade_at_100
         (ExitSamples.candle_low 89) false false) = Exit.EXIT Exit.STOP_LOSS /\
  snd (Exit.should_sell Exit.sample_config ExitSamples.trade_at_100
         (ExitSamples.candle_low (181#2)) false false) <> Exit.EXIT Exit.STOP_LOSS.
Proof.
  split.
  - apply (proj2 (proj2 (static_stoploss_exit Exit.sample_config ExitSamples.trade_at_100
                           (ExitSamples.candle_low 89) false false eq_refl))).
    apply Qle_bool_iff. reflexivity.
  - intro H.
    apply (proj2 (static_stoploss_exit Exit.sample_config ExitSamples.trade_at_100
                    (ExitSamples.candle_low (181#2)) false false eq_refl)) in H.
    apply Qle_bool_iff in H. discriminate H.
Defined.

(** ** Trade State Machine and loop actions *)
Module TSMFacts.
Import TSM.

Lemma find_map_order oid f os :
  (forall o, order_id (f o) = order_id o) ->
  find_order oid (map_order oid f os) = option_map f (find_order oid os).
Proof.
  intro Hid. induction os as [|o rest IH]; [reflexivity|].
  unfold find_order, map_order in *. simpl.
  destruct (Z.eqb (order_id o) oid) eqn:E.
  - rewrite Hid, E. reflexivity.
  - rewrite E. exact IH.
Qed.

Lemma cancelled_absorbing t ev :
  state t = CANCELLED -> state (apply_event t ev) = CANCELLED.
Proof.
  intro H. destruct ev; simpl;
    repeat match goal with
           | |- context [match ?x with _ => _ end] => destruct x
           end; simpl; try rewrite H; try (destruct (order_side _)); reflexivity.
Qed.

Lemma cancelled_absorbing_events t evs :
  state t = CANCELLED -> state (apply_events t evs) = CANCELLED.
Proof.
  unfold apply_events. revert t.
  induction evs as [|ev rest IH]; intros t H; simpl; [exact H|].
  apply IH, cancelled_absorbing, H.
Qed.

End TSMFacts.

(** Claim C7: applying a fill event a second time changes nothing: the
    first application marks the order filled, and fills of an order that is
    no longer pending are ignored. *)
Theorem fill_event_idempotent t oid ts :
  TSM.apply_event (TSM.apply_event t (TSM.FillEv oid ts)) (TSM.FillEv oid ts) =
  TSM.apply_event t (TSM.FillEv oid ts).
Proof.
  destruct (TSM.find_order oid (TSM.orders t)) as [o|] eqn:E.
  - destruct (TSM.is_pending o) eqn:P.
    + assert (H1 : TSM.apply_event t (TSM.FillEv oid ts) =
                   TSM.mk_trade t (TSM.after_fill (TSM.state t) (TSM.order_side o))
                     (match TSM.order_side o with TSM.Buy => TSM.requested o | TSM.Sell => TSM.amount t end)
                     (match TSM.order_side o with TSM.Buy => TSM.close_ts t | TSM.Sell => Some ts end)
                     (TSM.map_order oid (TSM.set_status TSM.Filled (TSM.requested o)) (TSM.orders t))).
      { simpl. rewrite E, P. reflexivity. }
      rewrite H1. simpl.
      rewrite TSMFacts.find_map_order by reflexivity. rewrite E. reflexivity.
    + simpl. rewrite E, P. simpl. rewrite E, P. reflexivity.
  - simpl. rewrite E. simpl. rewrite E. reflexivity.
Qed.

Module LoopFacts.
Import TSM Loop.

Lemma retry_from_all_fail left attempt call :
  (forall i, (attempt <= i <= attempt + left)%nat -> exists e, call i = Err e) ->
  exists e, retry_from left attempt call = Err e.
Proof.
  revert attempt. induction left as [|l IH]; intros attempt H; simpl.
  - destruct (H attempt) as [e He]; [lia|]. rewrite He.
    exists e. destruct (classify e); reflexivity.
  - destruct (H attempt) as [e He]; [lia|]. rewrite He.
    destruct (classify e).
    + apply IH. intros i Hi. apply H. lia.
    + exists e. reflexivity.
Qed.

Lemma update_trade_single tid f t :
  trade_id t = tid -> update_trade tid f [t] = [f t].
Proof. intro H. unfold update_trade. simpl. rewrite H, Z.eqb_refl. reflexivity. Qed.

End LoopFacts.

(** Claim C6: when every attempt of an action's adapter call within the
    retry budget fails, the action commits nothing: the trades are exactly
    as before the action, and the failure is recorded. *)
Theorem failed_action_commits_nothing budget now call ts a :
  (forall i, (i <= budget)%nat -> exists e, call i = Loop.Err e) ->
  fst (Loop.run_action budget now call ts a) = ts /\
  snd (Loop.run_action budget now call ts a) <> [].
Proof.
  intro H. unfold Loop.run_action, Loop.with_retry.
  destruct (LoopFacts.retry_from_all_fail budget 0 call) as [e He].
  - intros i Hi. apply H. lia.
  - rewrite He. split; [reflexivity | discriminate].
Qed.

(** Witness of C6: a sell of the waiting trade while the venue answers
    every attempt with a network error. *)
Lemma failed_action_commits_nothing_witness :
  fst (Loop.run_action 3 15 LoopSamples.venue_down [LoopSamples.waiting_trade]
         (Loop.ActSell 1 (1#50) 10)) = [LoopSamples.waiting_trade].
Proof.
  apply (failed_action_commits_nothing 3 15 LoopSamples.venue_down
           [LoopSamples.waiting_trade] (Loop.ActSell 1 (1#50) 10)).
  intros i _. exists Loop.NetworkError. reflexivity.
Defined.

(** Counterexample to C5: the opening buy of the waiting trade is unfilled
    at minute 15, past [unfilledtimeout.buy = 10], but every cancel attempt
    fails; the tick leaves the trade PENDING_OPEN, not CANCELLED. *)
Lemma unfilled_buy_timeout_counterexample :
  TSM.state (Loop.timeout_step 3 LoopSamples.sample_timeouts 15 LoopSamples.venue_down
               LoopSamples.waiting_trade) <> TSM.CANCELLED.
Proof. vm_compute. discriminate. Qed.

(** Claim C5, as amended: a tick that finds the opening buy order still
    unfilled and older than [unfilledtimeout.buy] cancels it through the
    adapter; when the cancel call succeeds the trade becomes CANCELLED and no
    later order event takes it out of CANCELLED (so never to OPEN); when the
    call fails the trade keeps its prior state for a later tick. *)
Theorem unfilled_buy_timeout_cancels budget ut now call t o :
  Loop.opening_order t = Some o -> TSM.is_pending o = true ->
  (Loop.timeout_buy ut < now - TSM.order_ts o)%Z ->
  TSM.state t = TSM.PENDING_OPEN \/ TSM.state t = TSM.OPEN ->
  match Loop.with_retry budget call with
  | Loop.Ok _ =>
      TSM.state (Loop.timeout_step budget ut now call t) = TSM.CANCELLED /\
      (forall evs, TSM.state (TSM.apply_events (Loop.timeout_step budget ut now call t) evs)
                   = TSM.CANCELLED)
  | Loop.Err _ => Loop.timeout_step budget ut now call t = t
  end.
Proof.
  intros Ho Hp Hage Hst.
  assert (Hto : Loop.timed_out_order ut now t = Some o).
  { unfold Loop.timed_out_order. rewrite Ho, Hp. simpl.
    unfold Loop.older_than. apply Z.ltb_lt in Hage. rewrite Hage. reflexivity. }
  unfold Loop.opening_order in Ho.
  destruct (TSM.orders t) as [|o0 rest] eqn:Eos; [discriminate|].
  destruct (TSM.order_side o0) eqn:Eside; [|discriminate].
  injection Ho as <-.
  unfold Loop.timeout_step. rewrite Hto. unfold Loop.run_action.
  destruct (Loop.with_retry budget call) as [vid|e].
  - unfold fst, Loop.commit. rewrite LoopFacts.update_trade_single by reflexivity.
    assert (Hc : TSM.state (TSM.apply_event t (TSM.TimeoutEv (TSM.order_id o0))) = TSM.CANCELLED).
    { simpl. unfold TSM.find_order. rewrite Eos. simpl. rewrite Z.eqb_refl, Hp. simpl.
      rewrite Eside. destruct Hst as [-> | ->]; reflexivity. }
    split; [exact Hc|].
    intro evs. apply TSMFacts.cancelled_absorbing_events, Hc.
  - reflexivity.
Qed.

(** Witness of C5: the waiting trade at minute 15 with a responsive
    venue. *)
Lemma unfilled_buy_timeout_cancels_witness :
  TSM.state (Loop.timeout_step 3 LoopSamples.sample_timeouts 15 LoopSamples.venue_up
               LoopSamples.waiting_trade) = TSM.CANCELLED.
Proof.
  exact (proj1 (unfilled_buy_timeout_cancels 3 LoopSamples.sample_timeouts 15
                  LoopSamples.venue_up LoopSamples.waiting_trade
                  (Loop.new_order 7 TSM.Buy (1#50) 10 0)
                  eq_refl eq_refl eq_refl (or_introl eq_refl))).
Defined.

(** ** Backtest Simulator *)
Module BacktestFacts.
Import Exit Backtest.

Lemma valid_data_perm d1 d2 : Permutation d1 d2 -> valid_data d1 = valid_data d2.
Proof.
  unfold valid_data. induction 1; simpl.
  - reflexivity.
  - rewrite IHPermutation. reflexivity.
  - rewrite !andb_assoc, (andb_comm (strictly_increasing (snd y))). reflexivity.
  - congruence.
Qed.

Lemma lookup_pair_perm d1 d2 :
  Permutation d1 d2 -> NoDup (map fst d1) -> forall p, lookup_pair p d1 = lookup_pair p d2.
Proof.
  induction 1 as [|[q rs] l l' H IH|[q1 r1] [q2 r2] l|l l' l'' H1 IH1 H2 IH2];
    intros Hnd p; simpl.
  - reflexivity.
  - simpl in Hnd. inversion Hnd as [|? ? _ Hnd']. rewrite (IH Hnd'). reflexivity.
  - simpl in Hnd. inversion Hnd as [|? ? Hnin _]. simpl in Hnin.
    destruct (String.eqb_spec p q2) as [E2|E2]; destruct (String.eqb_spec p q1) as [E1|E1];
      try reflexivity.
    subst. exfalso. apply Hnin. left. reflexivity.
  - rewrite (IH1 Hnd). apply IH2.
    apply (Permutation_NoDup (Permutation_map fst H1) Hnd).
Qed.

Lemma pair_data_perm wl d1 d2 :
  Permutation d1 d2 -> NoDup (map fst d1) -> pair_data wl d1 = pair_data wl d2.
Proof.
  intros Hp Hnd. unfold pair_data. apply map_ext. intro p.
  rewrite (lookup_pair_perm d1 d2 Hp Hnd p). reflexivity.
Qed.

Lemma count_open_app l x :
  count_open (l ++ [x]) = (count_open l + if bt_is_open x then 1 else 0)%nat.
Proof.
  unfold count_open. rewrite filter_app, length_app. simpl.
  destruct (bt_is_open x); reflexivity.
Qed.

Lemma exit_trade_open cfg pdata t x :
  bt_is_open (exit_trade cfg pdata t x) = true -> bt_is_open x = true.
Proof.
  unfold exit_trade. destruct (bt_is_open x) eqn:E; [reflexivity|].
  intro H. rewrite E in H. exact H.
Qed.

Lemma count_open_map_exit cfg pdata t l :
  (count_open (map (exit_trade cfg pdata t) l) <= count_open l)%nat.
Proof.
  unfold count_open. induction l as [|x rest IH]; simpl; [lia|].
  destruct (bt_is_open (exit_trade cfg pdata t x)) eqn:E.
  - rewrite (exit_trade_open _ _ _ _ E). simpl. lia.
  - destruct (bt_is_open x); simpl; lia.
Qed.

Section Bounded.
Variable cfg : bt_config.
Hypothesis no_stacking : enable_position_stacking cfg = false.
Hypothesis max_positions_on : disable_max_market_positions cfg = false.

Lemma enter_pair_admits t trades pr :
  enter_pair cfg t trades pr <> trades -> (count_open trades < max_open_trades cfg)%nat.
Proof.
  unfold enter_pair, slot_available. rewrite no_stacking, max_positions_on. simpl.
  destruct (row_at t (snd pr)) as [[r [n|]]|]; try (intro H; contradiction H; reflexivity).
  destruct (r_buy r); simpl; [|intro H; contradiction H; reflexivity].
  destruct (Nat.ltb_spec (count_open trades) (max_open_trades cfg)) as [Hlt|Hge]; simpl.
  - intros _. exact Hlt.
  - intro H. contradiction H. reflexivity.
Qed.

Lemma enter_pair_bounded t trades pr :
  (count_open trades <= max_open_trades cfg)%nat ->
  (count_open (enter_pair cfg t trades pr) <= max_open_trades cfg)%nat.
Proof.
  intro H. unfold enter_pair.
  destruct (row_at t (snd pr)) as [[r [n|]]|]; try exact H.
  unfold slot_available. rewrite no_stacking, max_positions_on. simpl.
  destruct (r_buy r); simpl; [|exact H].
  destruct (Nat.ltb_spec (count_open trades) (max_open_trades cfg)) as [Hlt|Hge]; simpl;
    [|exact H].
  destruct (negb (pair_open (fst pr) trades)); [|exact H].
  rewrite count_open_app. simpl. lia.
Qed.

End Bounded.
End BacktestFacts.

Module BacktestRun.
Import Exit Backtest.

Lemma step_ts_bounded cfg pdata trades t :
  enable_position_stacking cfg = false -> disable_max_market_positions cfg = false ->
  (count_open trades <= max_open_trades cfg)%nat ->
  (count_open (step_ts cfg pdata trades t) <= max_open_trades cfg)%nat.
Proof.
  intros Hs Hm H. unfold step_ts.
  assert (H0 : (count_open (map (exit_trade cfg pdata t) trades) <= max_open_trades cfg)%nat).
  { pose proof (BacktestFacts.count_open_map_exit cfg pdata t trades). lia. }
  revert H0. generalize (map (exit_trade cfg pdata t) trades) as l.
  induction pdata as [|pr rest IH]; intros l Hl; simpl; [exact Hl|].
  apply IH. apply BacktestFacts.enter_pair_bounded; assumption.
Qed.

Lemma run_from_bounded cfg pdata trades ts :
  enable_position_stacking cfg = false -> disable_max_market_positions cfg = false ->
  (count_open trades <= max_open_trades cfg)%nat ->
  forall s, In s (run_from cfg pdata trades ts) -> (count_open s <= max_open_trades cfg)%nat.
Proof.
  intros Hs Hm. revert trades.
  induction ts as [|t rest IH]; intros trades H s Hin; simpl in Hin; [contradiction|].
  pose proof (step_ts_bounded cfg pdata trades t Hs Hm H) as Hstep.
  destruct Hin as [<-|Hin]; [exact Hstep|].
  exact (IH _ Hstep s Hin).
Qed.

End BacktestRun.

(** Claim C1: the Backtest Simulator is a function of its input alone (no
    clock, no hidden state) and does not depend on the order in which the
    pairs' histories are supplied: two inputs listing the same histories
    (one per pair) in any order give the same result, in particular running
    it twice on one input gives one trade list. *)
Theorem backtest_deterministic cfg wl data1 data2 :
  NoDup (map fst data1) -> Permutation data1 data2 ->
  Backtest.backtest cfg wl data1 = Backtest.backtest cfg wl data2.
Proof.
  intros Hnd Hp. unfold Backtest.backtest.
  rewrite (BacktestFacts.valid_data_perm data1 data2 Hp).
  rewrite (BacktestFacts.pair_data_perm wl data1 data2 Hp Hnd).
  reflexivity.
Qed.

(** Witness of C1: two pairs' histories supplied in either order. *)
Lemma backtest_deterministic_witness :
  Backtest.backtest BacktestSamples.one_slot BacktestSamples.whitelist BacktestSamples.two_pairs =
  Backtest.backtest BacktestSamples.one_slot BacktestSamples.whitelist
    BacktestSamples.two_pairs_swapped.
Proof.
  apply backtest_deterministic.
  - simpl. constructor.
    + simpl. intros [H|[]]. discriminate H.
    + constructor; [intros []|constructor].
  - apply perm_swap.
Defined.

(** Counterexample to C2: without position stacking but with
    [--dmmp], one slot and two pairs both signalling a buy at minute 0,
    two trades are open after minute 0. *)
Lemma open_trades_bounded_counterexample :
  ~ (forall s, In s (Backtest.backtest_states BacktestSamples.one_slot_dmmp
                       BacktestSamples.whitelist BacktestSamples.two_pairs) ->
               (Backtest.count_open s <= Backtest.max_open_trades BacktestSamples.one_slot_dmmp)%nat).
Proof.
  intro H.
  set (states := Backtest.backtest_states _ _ _) in H.
  assert (Hs : Forall (fun s => Backtest.count_open s = 2%nat) states) by (vm_compute; auto).
  destruct states as [|s0 rest] eqn:E; [discriminate|].
  inversion Hs as [|? ? H0 _]; subst.
  specialize (H s0 (or_introl eq_refl)). rewrite H0 in H. simpl in H. apply Nat.leb_le in H. discriminate H.
Qed.

(** Claim C2, as amended: with position stacking disabled and
    [max_open_trades] applied (no [--dmmp]), an entry is admitted only when
    fewer than [max_open_trades] trades are open, and after every timestamp
    of a backtest at most [max_open_trades] trades are open. *)
Theorem open_trades_bounded cfg wl data :
  Backtest.enable_position_stacking cfg = false ->
  Backtest.disable_max_market_positions cfg = false ->
  (forall t trades pr,
     Backtest.enter_pair cfg t trades pr <> trades ->
     (Backtest.count_open trades < Backtest.max_open_trades cfg)%nat) /\
  (forall s, In s (Backtest.backtest_states cfg wl data) ->
     (Backtest.count_open s <= Backtest.max_open_trades cfg)%nat).
Proof.
  intros Hs Hm. split.
  - intros t trades pr. apply BacktestFacts.enter_pair_admits; assumption.
  - unfold Backtest.backtest_states. apply BacktestRun.run_from_bounded; [exact Hs | exact Hm |].
    apply Nat.le_0_l.
Qed.

(** Witness of C2: one slot, two pairs signalling at minute 0. *)
Lemma open_trades_bounded_witness :
  Forall (fun s => (Backtest.count_open s <= 1)%nat)
    (Backtest.backtest_states BacktestSamples.one_slot
       BacktestSamples.whitelist BacktestSamples.two_pairs).
Proof.
  apply Forall_forall.
  exact (proj2 (open_trades_bounded BacktestSamples.one_slot BacktestSamples.whitelist
                  BacktestSamples.two_pairs eq_refl eq_refl)).
Defined.

(** ** Edge Position Sizer *)
Module EdgeFacts.
Import Edge.

Lemma candidate_between ec s :
  In s (stoploss_candidates ec) ->
  (stoploss_range_min ec <= s <= stoploss_range_max ec) \/
  (stoploss_range_max ec <= s <= stoploss_range_min ec).
Proof.
  unfold stoploss_candidates. rewrite in_map_iff.
  intros [k [<- Hk]]. apply in_seq in Hk.
  set (mn := stoploss_range_min ec) in *. set (mx := stoploss_range_max ec) in *.
  set (st := stoploss_range_step ec) in *.
  set (q := (mx - mn) / st) in *.
  destruct k as [|k'].
  - change (inject_Z (Z.of_nat 0)) with 0. clear Hk. clearbody q st mx mn.
    destruct (Qlt_le_dec mn mx); [left|right]; split; lra.
  - assert (Hf : (1 <= Qfloor q)%Z) by lia.
    assert (Hkq : inject_Z (Z.of_nat (S k')) <= q).
    { eapply Qle_trans; [|apply Qfloor_le]. rewrite <- Zle_Qle. lia. }
    assert (Hk1 : 1 <= inject_Z (Z.of_nat (S k'))).
    { change 1 with (inject_Z 1). rewrite <- Zle_Qle. lia. }
    assert (Hq1 : 1 <= q) by lra.
    assert (Hst : ~ st == 0).
    { intro E. unfold q in Hq1. rewrite E in Hq1. unfold Qdiv in Hq1.
      change (/ 0) with 0 in Hq1. rewrite Qmult_0_r in Hq1. lra. }
    assert (Hd : q * st == mx - mn) by (unfold q; field; exact Hst).
    set (K := inject_Z (Z.of_nat (S k'))) in *.
    destruct (Qlt_le_dec 0 st) as [Hpos|Hneg].
    + left.
      assert (A : K * st <= q * st) by (apply Qmult_le_compat_r; lra).
      assert (B : 0 <= K * st) by (apply Qmult_le_0_compat; lra).
      split; lra.
    + right.
      assert (Hneg' : st < 0) by (destruct (Qeq_dec st 0); [contradiction | lra]).
      assert (A : K * (- st) <= q * (- st)) by (apply Qmult_le_compat_r; lra).
      assert (B : 0 <= K * (- st)) by (apply Qmult_le_0_compat; lra).
      assert (A' : q * st <= K * st).
      { setoid_replace (K * st) with (- (K * (- st))) by ring.
        setoid_replace (q * st) with (- (q * (- st))) by ring. lra. }
      assert (B' : K * st <= 0).
      { setoid_replace (K * st) with (- (K * (- st))) by ring. lra. }
      split; lra.
Qed.

Lemma fold_pick_some ec l acc c :
  fold_left (pick ec) l acc = Some c ->
  acc = Some c \/ (In c l /\ passes ec (snd c) = true).
Proof.
  revert acc. induction l as [|x rest IH]; intros acc H; simpl in H; [left; exact H|].
  destruct (IH _ H) as [Hp|[Hin Hpass]].
  - unfold pick in Hp. destruct (passes ec (snd x)) eqn:Px; [|left; exact Hp].
    destruct acc as [b|].
    + destruct (Qltb (expectancy (snd b)) (expectancy (snd x))).
      * injection Hp as <-. right. split; [left; reflexivity | exact Px].
      * left. exact Hp.
    + injection Hp as <-. right. split; [left; reflexivity | exact Px].
  - right. split; [right; exact Hin | exact Hpass].
Qed.

Lemma candidate_stats_in simulate ec s st :
  In (s, st) (candidate_stats simulate ec) ->
  In s (stoploss_candidates ec) /\ st = stats (simulate s).
Proof.
  unfold candidate_stats. rewrite in_map_iff.
  intros [s' [E Hin]]. injection E as <- <-. split; [exact Hin | reflexivity].
Qed.

End EdgeFacts.

(** Counterexample to C10: with the configuration sample's sweep
    ([stoploss_range_min = -0.01], [stoploss_range_max = -0.1], step
    [-0.01]) the numeric interval [[stoploss_range_min, stoploss_range_max]]
    is empty, yet a pair with a good history is admitted with stoploss
    -0.01. *)
Lemma edge_stoploss_in_range_counterexample :
  match Edge.edge_pair EdgeSamples.steady_history Edge.sample_edge 1 with
  | Some (s, _) =>
      ~ (Edge.stoploss_range_min Edge.sample_edge <= s /\
         s <= Edge.stoploss_range_max Edge.sample_edge)
  | None => False
  end.
Proof.
  vm_compute. intros [_ H]. apply H. reflexivity.
Qed.

(** Claim C10, as amended: a pair the Edge sizer admits gets a swept
    stoploss lying between [stoploss_range_min] and [stoploss_range_max]
    inclusive (in whichever order they are configured), a stoploss at which
    the pair meets [min_trade_number], [minimum_winrate] and
    [minimum_expectancy], and the stake computed from it; a pair for which
    no swept stoploss meets the thresholds gets no stoploss and no stake. *)
Theorem edge_stoploss_in_range simulate ec total_capital :
  match Edge.edge_pair simulate ec total_capital with
  | Some (s, stake) =>
      ((Edge.stoploss_range_min ec <= s <= Edge.stoploss_range_max ec) \/
       (Edge.stoploss_range_max ec <= s <= Edge.stoploss_range_min ec)) /\
      In s (Edge.stoploss_candidates ec) /\
      Edge.passes ec (Edge.stats (simulate s)) = true /\
      stake = Edge.stake_size ec total_capital s
  | None =>
      forall s, In s (Edge.stoploss_candidates ec) ->
                Edge.passes ec (Edge.stats (simulate s)) = false
  end.
Proof.
  unfold Edge.edge_pair.
  destruct (Edge.best_stoploss simulate ec) as [[s st]|] eqn:E.
  - unfold Edge.best_stoploss in E.
    destruct (EdgeFacts.fold_pick_some ec _ None (s, st) E) as [H|[Hin Hpass]];
      [discriminate|].
    destruct (EdgeFacts.candidate_stats_in simulate ec s st Hin) as [Hc ->].
    split; [apply EdgeFacts.candidate_between; exact Hc|].
    split; [exact Hc|]. split; [exact Hpass|reflexivity].
  - intros s Hs. destruct (Edge.passes ec (Edge.stats (simulate s))) eqn:P; [|reflexivity].
    exfalso. unfold Edge.best_stoploss in E.
    assert (Hgen : forall l acc, In (s, Edge.stats (simulate s)) l ->
                   fold_left (Edge.pick ec) l acc <> None).
    { induction l as [|x rest IH]; intros acc Hin; [destruct Hin|].
      simpl. destruct Hin as [->|Hin]; [|apply IH, Hin].
      intro Hn. assert (Hpk : Edge.pick ec acc (s, Edge.stats (simulate s)) <> None).
      { unfold Edge.pick. simpl. rewrite P. destruct acc as [b|]; [|discriminate].
        destruct (Qltb _ _); discriminate. }
      revert Hn Hpk. generalize (Edge.pick ec acc (s, Edge.stats (simulate s))).
      clear. induction rest as [|y rest IH]; intros o Hn Hpk; simpl in Hn; [contradiction|].
      apply (IH _ Hn). unfold Edge.pick. destruct (Edge.passes ec (snd y)); [|exact Hpk].
      destruct o as [b|]; [|contradiction].
      destruct (Qltb _ _); discriminate. }
    apply (Hgen (Edge.candidate_stats simulate ec) None); [|exact E].
    unfold Edge.candidate_stats. apply in_map_iff. exists s. split; [reflexivity|exact Hs].
Qed.

Module SetupFacts.
Import Setup.
Local Open Scope nat_scope.
Local Open Scope string_scope.






Lemma contains_app_r (p s t : string) : contains p t = true -> contains p (s ++ t) = true.
Proof.
  induction s as [|c s IH]; simpl; intro H; [exact H|].
  rewrite (IH H). apply orb_true_r.
Qed.

Lemma grep_count_app k l1 l2 : grep_count k (app l1 l2) = grep_count k l1 + grep_count k l2.
Proof. unfold grep_count. now rewrite filter_app, length_app. Qed.

Lemma grep_count_none k l : Forall (fun x => k x = false) l -> grep_count k l = 0.
Proof.
  induction 1 as [|x l Hx _ IH]; [reflexivity|].
  unfold grep_count in *. simpl. now rewrite Hx.
Qed.








Lemma length_app (s t : string) : String.length (s ++ t) = String.length s + String.length t.
Proof. induction s as [|c s IH]; simpl; [reflexivity|now rewrite IH]. Qed.




End SetupFacts.

(** ** Installer script and notebook *)
Import Setup.
Local Open Scope nat_scope.
Local Open Scope string_scope.






(** X4: [reset] runs [git reset --hard] only when the reply to its prompt is
    exactly [y] or [Y]. *)
Theorem hard_reset_needs_yes (lines : list string) (reply : string) (env_dir venv_ok : bool)
  (target : string) (H : In (GitResetHard target) (reset_effects lines reply env_dir venv_ok)) :
  answers_yes reply = true.
Proof.
  unfold reset_effects in H. apply in_app_or in H as [H|H].
  - destruct (Nat.eqb _ 1); [|destruct H].
    destruct (answers_yes reply); [reflexivity|destruct H].
  - apply in_app_or in H as [H|H].
    + destruct env_dir; simpl in H; [destruct H as [H|H]; [discriminate|destruct H]|destruct H].
    + simpl in H. destruct H as [H|H]; [discriminate|].
      destruct venv_ok; simpl in H; destruct H as [H|H]; try discriminate; destruct H.
Qed.

Lemma hard_reset_needs_yes_witness :
  In (GitResetHard "origin/develop")
     (reset_effects ["* develop 1a2b3c4 wip"] "y" true true) /\
  answers_yes "y" = true.
Proof.
  split; [simpl; auto|].
  apply (hard_reset_needs_yes ["* develop 1a2b3c4 wip"] "y" true true "origin/develop").
  simpl; auto.
Defined.

(** X5: [reset] hard-resets to [origin/develop] any checked-out branch whose
    name starts with [develop] (such as [develop-old]) once the user answers
    [y], as long as no other listed line contains [* develop] or [* master]. *)
Theorem reset_follows_branch_prefix (before after : list string) (rest : string)
  (env_dir venv_ok : bool)
  (Hothers : Forall (fun l => contains "* develop" l = false /\ contains "* master" l = false)
                    (app before after)) :
  exists tail, reset_effects (app before (("* develop" ++ rest) :: after)) "y" env_dir venv_ok
               = GitFetch :: GitResetHard "origin/develop" :: tail.
Proof.
  assert (Hcur : contains "* develop" ("* develop" ++ rest) = true).
  { destruct rest; reflexivity. }
  assert (Hcount : forall k : string -> bool,
            Forall (fun l => k l = false) (app before after) ->
            k ("* develop" ++ rest) = true ->
            grep_count k (app before (("* develop" ++ rest) :: after)) = 1).
  { intros k Hk Hc. rewrite SetupFacts.grep_count_app.
    apply Forall_app in Hk as [Hb Ha].
    rewrite (SetupFacts.grep_count_none k before Hb).
    unfold grep_count. cbn [filter]. rewrite Hc. cbn [List.length].
    fold (grep_count k after). rewrite (SetupFacts.grep_count_none k after Ha). reflexivity. }
  unfold reset_effects.
  rewrite Hcount; [| |now rewrite Hcur].
  2:{ eapply Forall_impl; [|exact Hothers]. intros l [H1 H2]. now rewrite H1, H2. }
  rewrite Hcount; [| |exact Hcur].
  2:{ eapply Forall_impl; [|exact Hothers]. intros l [H1 _]. exact H1. }
  eexists. reflexivity.
Qed.

Lemma reset_follows_branch_prefix_witness :
  Forall (fun l => contains "* develop" l = false /\ contains "* master" l = false)
         (app [] ["  master 9f8e7d6 release"]) /\
  exists tail, reset_effects (app [] (("* develop" ++ "-old 1a2b3c4 wip")
                                      :: ["  master 9f8e7d6 release"])) "y" true true
               = GitFetch :: GitResetHard "origin/develop" :: tail.
Proof.
  split; [repeat constructor|].
  apply (reset_follows_branch_prefix [] ["  master 9f8e7d6 release"] "-old 1a2b3c4 wip" true true).
  repeat constructor.
Defined.


(** X7: [setup.sh] without arguments or with two or more arguments runs
    [help]. *)
Theorem dispatch_help_unless_single_flag :
  dispatch [] = Help /\ forall a b rest, dispatch (a :: b :: rest) = Help.
Proof.
  split; [reflexivity|]. intros a b rest.
  assert (Hsp : contains " " (case_word (a :: b :: rest)) = true).
  { unfold case_word. simpl String.concat.
    apply SetupFacts.contains_app_r. simpl.
    match goal with |- context [prefix "" ?s] => destruct s end; reflexivity. }
  assert (Hne : forall f, contains " " f = false -> String.eqb (case_word (a :: b :: rest)) f = false).
  { intros f Hf. destruct (String.eqb _ f) eqn:E; [|reflexivity].
    apply String.eqb_eq in E. rewrite E in Hsp. congruence. }
  unfold dispatch. rewrite !Hne by reflexivity. reflexivity.
Qed.

(** X8: inside an activated virtual environment [setup.sh] exits with code 2
    before running any command, whatever its arguments. *)
Theorem virtualenv_stops_setup (env : py_env) (args : list string)
  (H : virtual_env env <> "") : setup_main env args = Stopped 2.
Proof.
  unfold setup_main, check_installed_python.
  destruct (String.eqb (virtual_env env) "") eqn:E.
  - apply String.eqb_eq in E. contradiction.
  - reflexivity.
Qed.

Lemma virtualenv_stops_setup_witness :
  virtual_env SetupSamples.inside_venv <> "" /\
  setup_main SetupSamples.inside_venv ["--install"] = Stopped 2.
Proof.
  split; [discriminate|].
  apply (virtualenv_stops_setup SetupSamples.inside_venv ["--install"]). discriminate.
Defined.

(** X9: when [check_installed_python] returns, no virtual environment is
    active and [PYTHON] is [python3.7] if it is on the path, else
    [python3.6] if it is, both with a working pip; only when neither is on
    the path does it keep a non-blank inherited [PYTHON], unchecked. *)
Theorem check_python_returns (env : py_env) (p : string) (checked : bool)
  (H : check_installed_python env = PyReturn p checked) :
  virtual_env env = "" /\
  ((on_path env "python3.7" = true /\ p = "python3.7" /\ pip_works env p = true /\ checked = true) \/
   (on_path env "python3.7" = false /\ on_path env "python3.6" = true /\
    p = "python3.6" /\ pip_works env p = true /\ checked = true) \/
   (on_path env "python3.7" = false /\ on_path env "python3.6" = false /\
    p = python_var env /\ blank p = false /\ checked = false)).
Proof.
  unfold check_installed_python, check_installed_pip in H.
  destruct (String.eqb (virtual_env env) "") eqn:E; [|discriminate].
  apply String.eqb_eq in E. split; [exact E|].
  destruct (on_path env "python3.7") eqn:P7.
  - destruct (pip_works env "python3.7") eqn:W; [|discriminate].
    injection H as <- <-. left. auto.
  - destruct (on_path env "python3.6") eqn:P6.
    + destruct (pip_works env "python3.6") eqn:W; [|discriminate].
      injection H as <- <-. right; left. auto.
    + destruct (blank (python_var env)) eqn:B; [discriminate|].
      injection H as <- <-. right; right. auto.
Qed.

Lemma check_python_returns_witness :
  check_installed_python SetupSamples.python3_only = PyReturn "python3" false /\
  (virtual_env SetupSamples.python3_only = "" /\
  ((on_path SetupSamples.python3_only "python3.7" = true /\ "python3" = "python3.7" /\
    pip_works SetupSamples.python3_only "python3" = true /\ false = true) \/
   (on_path SetupSamples.python3_only "python3.7" = false /\
    on_path SetupSamples.python3_only "python3.6" = true /\
    "python3" = "python3.6" /\ pip_works SetupSamples.python3_only "python3" = true /\
    false = true) \/
   (on_path SetupSamples.python3_only "python3.7" = false /\
    on_path SetupSamples.python3_only "python3.6" = false /\
    "python3" = python_var SetupSamples.python3_only /\ blank "python3" = false /\
    false = false))).
Proof.
  split; [reflexivity|].
  apply (check_python_returns SetupSamples.python3_only "python3" false). reflexivity.
Defined.

(** X10: the notebook's project-root search climbs at most four
    directories and stops at the nearest one holding [LICENSE]; when none of
    the first four does, it ends four levels up. *)
Theorem project_root_nearest_license (has_license : list string -> bool) (cwd : list string) :
  exists k, (k <= 4)%nat /\
    Notebook.project_root has_license cwd = Nat.iter k Notebook.parent cwd /\
    (forall j, (j < k)%nat -> has_license (Nat.iter j Notebook.parent cwd) = false) /\
    ((k < 4)%nat -> has_license (Nat.iter k Notebook.parent cwd) = true).
Proof.
  unfold Notebook.project_root. cbn [Notebook.climb Nat.ltb Nat.leb andb].
  destruct (has_license cwd) eqn:E0.
  { exists 0. simpl. rewrite E0. repeat split; auto; intros; lia. }
  destruct (has_license (Notebook.parent cwd)) eqn:E1.
  { exists 1. simpl. rewrite E1. repeat split; auto.
    intros j Hj. destruct j; [exact E0|lia]. }
  destruct (has_license (Notebook.parent (Notebook.parent cwd))) eqn:E2.
  { exists 2. simpl. rewrite E2. repeat split; auto.
    intros j Hj. destruct j as [|[|j]]; [exact E0|exact E1|lia]. }
  destruct (has_license (Notebook.parent (Notebook.parent (Notebook.parent cwd)))) eqn:E3.
  { exists 3. simpl. rewrite E3. repeat split; auto.
    intros j Hj. destruct j as [|[|[|j]]]; [exact E0|exact E1|exact E2|lia]. }
  exists 4. cbn. repeat split; auto; [|lia].
  intros j Hj. destruct j as [|[|[|[|j]]]]; [exact E0|exact E1|exact E2|exact E3|lia].
Qed.

